(** * The operator node abstraction of the optimizer

    A shallow embedding of [src/include/optimizer/operator_node_contents.h]:
    the capability interface [BaseOperatorNodeContents], the typed adapter
    [OperatorNodeContents<T>], the node handle [Operator] and the
    [std::hash] specialisation, over an explicit store of heap-allocated
    instances.

    The handle owns its instance through a [std::unique_ptr]; it is modelled
    as an optional location into a store, so that ownership, null handles and
    aliasing are visible in the statements. *)

From Stdlib Require Import ZArith.
From stdpp Require Import base decidable option strings gmap.

(** ** Results of a call

    A member function either returns, throws, or runs into behaviour the
    language leaves undefined (dereferencing a null or dangling pointer). *)

Inductive exception : Type :=
| UndefinedOperator.

Inductive fault : Type :=
| NullDereference
| DanglingPointer
| UnboundedRecursion.

Inductive outcome (A : Type) : Type :=
| Return (a : A)
| Throw (e : exception)
| UB (f : fault).

Arguments Return {A} a.
Arguments Throw {A} e.
Arguments UB {A} f.

#[global] Instance outcome_ret : MRet outcome := λ A a, Return a.

#[global] Instance outcome_bind : MBind outcome := λ A B k m,
  match m with
  | Return a => k a
  | Throw e => Throw e
  | UB f => UB f
  end.

#[global] Instance outcome_fmap : FMap outcome := λ A B g m,
  match m with
  | Return a => Return (g a)
  | Throw e => Throw e
  | UB f => UB f
  end.

(** ** Hash values

    [common::hash_t] and [std::size_t] are unsigned machine integers; a hash
    is carried as its integer value and the conversion to [std::size_t]
    performed by [std::hash::operator()] is written out. *)

Definition hash_t : Type := Z.

Definition size_t_bits : Z := 64.

Definition to_size_t (h : hash_t) : Z := (h mod 2 ^ size_t_bits)%Z.

(** ** What the header includes but does not define

    [OpType] comes from [optimizer/optimizer_defs.h], [HashUtil::Hash] from
    [common/hash_util.h], [OperatorVisitor] is only forward-declared.  The
    concrete operator classes (the template arguments [T] of
    [OperatorNodeContents<T>]) and their data members belong to the operator
    catalog. *)

Class Externals : Type := {
  OpType : Type;
  OpType_eq_dec :: EqDecision OpType;
  HashUtil_Hash : OpType → hash_t;
  OperatorVisitor : Type;
  ConcreteKind : Type;
  ConcreteKind_eq_dec :: EqDecision ConcreteKind;
  Members : Type;
}.

(** An instance of the capability interface: an object whose most-derived
    class is [dynamic_kind] and whose data members are [members].
    [BaseOperatorNodeContents] and [OperatorNodeContents<T>] are abstract
    ([Copy] is pure virtual in both), so every live instance belongs to a
    concrete operator class. *)

Record BaseOperatorNodeContents `{Externals} : Type := {
  dynamic_kind : ConcreteKind;
  members : Members;
}.

(** The classes [typeid] can name: the interface, the adapter instantiated
    at [T], and the concrete operator class [T] itself, which derives from
    [OperatorNodeContents<T>]. *)

Inductive type_info `{Externals} : Type :=
| ti_BaseOperatorNodeContents
| ti_OperatorNodeContents (T : ConcreteKind)
| ti_Concrete (T : ConcreteKind).

#[global] Instance type_info_eq_dec `{Externals} : EqDecision type_info.
Proof. solve_decision. Defined.

(** Per-class declarations supplied by the catalog: the static members
    [name] and [type] of each adapter instantiation, the logical/physical
    partition of the tags, the visitor handler selected by [Accept], and the
    overrides of the virtual [Hash], [operator==] and [operator!=], when a
    class has them. *)

Class Catalog `{Externals} : Type := {
  OperatorNodeContents_name : ConcreteKind → string;
  OperatorNodeContents_type : ConcreteKind → OpType;
  logical_tag : OpType → bool;
  Visit : ConcreteKind → BaseOperatorNodeContents → OperatorVisitor → OperatorVisitor;
  Hash_override : ConcreteKind → option (BaseOperatorNodeContents → hash_t);
  eq_override : ConcreteKind →
    option (BaseOperatorNodeContents → BaseOperatorNodeContents → bool);
  ne_override : ConcreteKind →
    option (BaseOperatorNodeContents → BaseOperatorNodeContents → bool);
}.

Definition loc : Type := positive.

(** Modelled from the spec: which data members of a concrete operator class
    are nested node handles is decided by the classes of the catalog, not by
    the header.  "each concrete kind is responsible for correctly duplicating
    its owned sub-fields, including any nested node handles it contains".
    [nested m] lists the instances owned through the node handles among the
    members [m], in declaration order; [set_nested cs m] is [m] with those
    handles owning [cs] instead and every other member unchanged. *)

Class Nesting `{Externals} : Type := {
  nested : Members → list loc;
  set_nested : list loc → Members → Members;
  nested_set_nested cs m :
    length cs = length (nested m) → nested (set_nested cs m) = cs;
}.

(** [Operator]: the only data member is
    [std::unique_ptr<BaseOperatorNodeContents> contents_]; [None] is the
    null pointer. *)

Record Operator : Type := {
  contents_ : option loc;
}.

(** The store: the heap-allocated instances, by address. *)

Abbreviation heap := (gmap loc BaseOperatorNodeContents).

Section Definitions.
Context `{!Externals} `{!Catalog} `{!Nesting}.

(** *** [typeid] of a polymorphic glvalue: the most-derived class. *)

Definition typeid (n : BaseOperatorNodeContents) : type_info :=
  ti_Concrete (dynamic_kind n).

(** *** The class hierarchy

    [OperatorNodeContents<T>] derives from [BaseOperatorNodeContents]
    (line 92); a concrete operator class [T] is bound to the interface through
    its own adapter instantiation, [class T : public OperatorNodeContents<T>]. *)

Definition direct_base (t : type_info) : option type_info :=
  match t with
  | ti_Concrete T => Some (ti_OperatorNodeContents T)
  | ti_OperatorNodeContents _ => Some ti_BaseOperatorNodeContents
  | ti_BaseOperatorNodeContents => None
  end.

Inductive strict_supertype : type_info → type_info → Prop :=
| supertype_direct S K :
    direct_base K = Some S → strict_supertype S K
| supertype_step S M K :
    direct_base K = Some M → strict_supertype S M → strict_supertype S K.

Definition depth (t : type_info) : nat :=
  match t with
  | ti_BaseOperatorNodeContents => 0
  | ti_OperatorNodeContents _ => 1
  | ti_Concrete _ => 2
  end.

(** *** [OperatorNodeContents<T>] (lines 109 and 114)

    [GetName] returns [std::string(name)], [GetType] returns [type]. *)

Definition OperatorNodeContents_GetName (T : ConcreteKind) : string :=
  OperatorNodeContents_name T.

Definition OperatorNodeContents_GetType (T : ConcreteKind) : OpType :=
  OperatorNodeContents_type T.

(** Modelled from the spec: [OperatorNodeContents<T>::IsLogical] is declared
    at line 119 and defined outside the header.  "supplies
    IsLogical/IsPhysical by checking the tag against the logical/physical
    partition". *)


(** Modelled from the spec: [OperatorNodeContents<T>::IsPhysical] is declared
    at line 124 and defined outside the header.  "mutually exclusive
    classification; every concrete kind is exactly one of the two". *)


(** Modelled from the spec: [OperatorNodeContents<T>::Accept] is declared at
    line 98 and defined outside the header.  "Accept dispatches to a visitor
    method overload selected by the concrete type"; the visitor's effect is
    carried as a change of the visitor's state. *)


(** *** Virtual calls through a [BaseOperatorNodeContents] reference

    [GetName], [GetType], [IsLogical], [IsPhysical] and [Accept] are pure
    virtual in the interface and resolve to the adapter's final overriders. *)

Definition GetName (n : BaseOperatorNodeContents) : string :=
  OperatorNodeContents_GetName (dynamic_kind n).

Definition GetType (n : BaseOperatorNodeContents) : OpType :=
  OperatorNodeContents_GetType (dynamic_kind n).




(** *** [BaseOperatorNodeContents::Hash] (lines 67-70) *)

Definition BaseOperatorNodeContents_Hash (this : BaseOperatorNodeContents) : hash_t :=
  let t := GetType this in
  HashUtil_Hash t.

(** *** [BaseOperatorNodeContents::operator==] (line 77) *)

Definition BaseOperatorNodeContents_eq (this r : BaseOperatorNodeContents) : bool :=
  bool_decide (GetType this = GetType r).

(** The virtual calls [n.Hash()] and [l == r]: the override of the dynamic
    class of the object the call is made on, or else the interface's own
    definition. *)

Definition Hash (n : BaseOperatorNodeContents) : hash_t :=
  match Hash_override (dynamic_kind n) with
  | Some f => f n
  | None => BaseOperatorNodeContents_Hash n
  end.

Definition contents_eq (l r : BaseOperatorNodeContents) : bool :=
  match eq_override (dynamic_kind l) with
  | Some f => f l r
  | None => BaseOperatorNodeContents_eq l r
  end.

(** *** [BaseOperatorNodeContents::operator!=] (line 84): [!operator==(r)],
    where [operator==] is again a virtual call. *)

Definition BaseOperatorNodeContents_ne (this r : BaseOperatorNodeContents) : bool :=
  negb (contents_eq this r).

Definition contents_ne (l r : BaseOperatorNodeContents) : bool :=
  match ne_override (dynamic_kind l) with
  | Some f => f l r
  | None => BaseOperatorNodeContents_ne l r
  end.

(** *** [std::hash<BaseOperatorNodeContents>::operator()] (line 260)

    [return s.Hash();] with [result_type = std::size_t]. *)

Definition std_hash (s : BaseOperatorNodeContents) : Z :=
  to_size_t (Hash s).

(** *** Pointers into the store *)

Definition deref (σ : heap) (p : option loc) : outcome BaseOperatorNodeContents :=
  match p with
  | None => UB NullDereference
  | Some l =>
      match σ !! l with
      | Some n => Return n
      | None => UB DanglingPointer
      end
  end.

(** A handle is well formed in a store when its pointer is null or live:
    what [std::unique_ptr] ownership maintains. *)

Definition owns (σ : heap) (h : Operator) : Prop :=
  match contents_ h with
  | Some p => is_Some (σ !! p)
  | None => True
  end.

(** The instance a handle owns, when it is defined and its pointer is live. *)

Definition instance_of (σ : heap) (h : Operator) : option BaseOperatorNodeContents :=
  p ← contents_ h; σ !! p.

(** *** Ownership

    An instance owns the instances behind its nested handles, and so on
    downwards.  [owned_tree σ p A] holds when the instance at [p] and
    everything it owns, directly or not, are live in [σ], occupy exactly the
    addresses [A], and no address is owned twice: the shape single ownership
    through [std::unique_ptr] gives.  [owned_forest] is the same for the
    nested handles of one instance. *)

Inductive owned_tree (σ : heap) : loc → gset loc → Prop :=
| owned_tree_node p n F :
    σ !! p = Some n →
    owned_forest σ (nested (members n)) F →
    p ∉ F →
    owned_tree σ p ({[p]} ∪ F)
with owned_forest (σ : heap) : list loc → gset loc → Prop :=
| owned_forest_nil :
    owned_forest σ [] ∅
| owned_forest_cons c cs A F :
    owned_tree σ c A →
    owned_forest σ cs F →
    A ## F →
    owned_forest σ (c :: cs) (A ∪ F).

Scheme owned_tree_mut := Minimality for owned_tree Sort Prop
  with owned_forest_mut := Minimality for owned_forest Sort Prop.

Combined Scheme owned_mutind from owned_tree_mut, owned_forest_mut.

(** Copying a sequence of nested handles, left to right, with [copy] for one
    handle; the store is threaded through. *)

Fixpoint copy_handles (copy : heap → loc → outcome (heap * loc))
    (σ : heap) (cs : list loc) : outcome (heap * list loc) :=
  match cs with
  | [] => Return (σ, [])
  | c :: cs' =>
      '(σ1, c') ← copy σ c;
      '(σ2, cs'') ← copy_handles copy σ1 cs';
      Return (σ2, c' :: cs'')
  end.

(** Modelled from the spec: the [Copy()] overrides of the concrete operator
    classes are not in the header, where [Copy] is pure virtual.  "produces a
    deep, independent duplicate; guarantee: the original and the copy share
    no mutable state, including transitively through any nested node handles
    the instance owns".  The duplicate is a newly allocated instance of the
    same class; each nested handle is copied in turn, as the copy constructor
    of [Operator] does ([contents_->Copy()] on the instance it owns), and the
    other members are taken over.  The recursion goes at most [k] instances
    deep. *)

Fixpoint Copy_fuel (k : nat) (σ : heap) (this : BaseOperatorNodeContents) :
    outcome (heap * loc) :=
  match k with
  | 0 => UB UnboundedRecursion
  | S k' =>
      '(σ1, cs) ← copy_handles
                    (λ σ0 c, n ← deref σ0 (Some c); Copy_fuel k' σ0 n)
                    σ (nested (members this));
      let q := fresh (dom σ1) in
      Return (<[q := {| dynamic_kind := dynamic_kind this;
                        members := set_nested cs (members this) |}]> σ1, q)
  end.

(** Modelled from the spec: [Copy()] itself, as above.  An ownership tree
    inside a store of [size σ] instances is at most that deep, so the bound
    on the recursion is out of reach on a well-formed store; the result is
    the store after the allocations and the raw pointer returned. *)

Definition Copy (σ : heap) (this : BaseOperatorNodeContents) : outcome (heap * loc) :=
  Copy_fuel (S (size σ)) σ this.

(** What a completed copy of [n] leaves behind: the old store untouched, and
    a new ownership tree on addresses that were all free before. *)


(** Modelled from the spec: "concrete kinds with semantic fields must
    override equality to compare those fields".  An override [f] of
    [operator==] in class [K] conforms when there are fields of the members,
    the same wherever the nested instances happen to be allocated, such that
    [f] holds between two instances of [K] exactly when those fields agree. *)


(** *** [Operator::Operator(const Operator &op)] (line 163)

    [contents_(op.contents_->Copy())]: the arrow dereferences [op.contents_]
    without a test. *)

Definition Operator_copy (σ : heap) (op : Operator) : outcome (heap * Operator) :=
  n ← deref σ (contents_ op);
  '(σ', q) ← Copy σ n;
  Return (σ', {| contents_ := Some q |}).

(** *** [Operator::As<T>] (lines 219-228) *)

Definition As (T : type_info) (σ : heap) (this : Operator) : outcome (option loc) :=
  match contents_ this with
  | Some p =>
      n ← deref σ (Some p);
      if decide (typeid n = T) then Return (Some p) else Return None
  | None => Return None
  end.

(** *** Members of [Operator] that the header only declares

    Their bodies are in a translation unit of their own; each is taken from
    what the specification says of it. *)

(** Modelled from the spec: [Operator::Operator()] (line 146) is only
    declared.  "Default construction produces an undefined handle (no owned
    instance)." *)

Definition Operator_default : Operator :=
  {| contents_ := None |}.

(** Modelled from the spec: [Operator::Operator(std::unique_ptr<...>)]
    (line 152) is only declared.  "Construction from a capability instance
    transfers ownership into the handle." *)

Definition Operator_new (contents : option loc) : Operator :=
  {| contents_ := contents |}.

(** Modelled from the spec: [Operator::Operator(Operator &&)] (line 158) is
    only declared.  "Move construction/assignment transfers ownership without
    copying; the moved-from handle becomes undefined."  The pair is the
    handle constructed and the moved-from handle. *)

Definition Operator_move (o : Operator) : Operator * Operator :=
  ({| contents_ := contents_ o |}, {| contents_ := None |}).

(** Modelled from the spec: [Operator::IsDefined] (line 202) is only
    declared.  "IsDefined() -> bool reports this state": whether the handle
    holds an instance. *)

Definition IsDefined (this : Operator) : bool :=
  bool_decide (contents_ this ≠ None).

(** Modelled from the spec: the forwarding members (lines 168-183, 207, 212)
    are only declared.  "Accept(visitor), GetName(), GetType(), Hash(),
    IsLogical(), IsPhysical() forward to the owned instance; each fails with
    an "undefined operator" error if the handle holds no instance."
    [forward f] is that pattern for the member [f] of the instance. *)

Definition forward {A : Type} (f : BaseOperatorNodeContents → A)
    (σ : heap) (this : Operator) : outcome A :=
  if IsDefined this then n ← deref σ (contents_ this); Return (f n)
  else Throw UndefinedOperator.

(** Modelled from the spec: [Operator::Accept] (line 168), by [forward]. *)


(** Modelled from the spec: [Operator::GetName] (line 173), by [forward]. *)


(** Modelled from the spec: [Operator::GetType] (line 178), by [forward]. *)


(** Modelled from the spec: [Operator::Hash] (line 183), by [forward]. *)

Definition Operator_Hash : heap → Operator → outcome hash_t :=
  forward Hash.

(** Modelled from the spec: [Operator::IsLogical] (line 207), by [forward]. *)


(** Modelled from the spec: [Operator::IsPhysical] (line 212), by [forward]. *)


(** Modelled from the spec: [Operator::operator==] (line 190) is only
    declared.  "operator==(rhs) -> bool: delegates to the owned instance's
    equality; two undefined handles are considered equal to each other but
    not to any defined handle." *)

Definition Operator_eq (σ : heap) (this rhs : Operator) : outcome bool :=
  match IsDefined this, IsDefined rhs with
  | true, true =>
      l ← deref σ (contents_ this);
      r ← deref σ (contents_ rhs);
      Return (contents_eq l r)
  | false, false => Return true
  | _, _ => Return false
  end.

(** Modelled from the spec: [Operator::operator==] (line 190) once more, as
    the error taxonomy of the specification has it, where equality is one of
    the forwarding operations: "Undefined-operator access: calling any
    forwarding operation (Accept, GetName, GetType, Hash, IsLogical,
    IsPhysical, equality) on a handle with no owned instance.  Policy: fail
    with a distinct, catchable error (not a silent default)".  Each operand
    is reached as the other forwarding members reach the instance.  The
    specification gives equality two descriptions; this one and [Operator_eq]
    agree on defined handles and part on undefined ones. *)

Definition Operator_eq_forwarding (σ : heap) (this rhs : Operator) : outcome bool :=
  l ← forward id σ this;
  r ← forward id σ rhs;
  Return (contents_eq l r).

(** *** [Operator::operator!=] (line 197): [!operator==(rhs)]. *)

Definition Operator_ne (σ : heap) (this rhs : Operator) : outcome bool :=
  negb <$> Operator_eq σ this rhs.

End Definitions.

(** ** A small catalog

    Two operator classes in the shape of the spec's examples: a field-less
    limit marker that keeps the default [Hash] and [operator==], and a
    join-like class that carries a predicate and overrides both.  The
    theorems below are exercised on it. *)

Module Fixture.

Inductive Tag : Type :=
| TAG_LIMIT
| TAG_JOIN.

Inductive Kind : Type :=
| LimitMarker
| JoinLike.

#[export] Instance Tag_eq_dec : EqDecision Tag.
Proof. solve_decision. Defined.

#[export] Instance Kind_eq_dec : EqDecision Kind.
Proof. solve_decision. Defined.

Definition hash_tag (t : Tag) : hash_t :=
  match t with
  | TAG_LIMIT => 17
  | TAG_JOIN => 42
  end%Z.

#[export] Instance externals : Externals := {|
  OpType := Tag;
  HashUtil_Hash := hash_tag;
  OperatorVisitor := list string;
  ConcreteKind := Kind;
  Members := Z;
|}.

Definition tag_of (T : Kind) : Tag :=
  match T with
  | LimitMarker => TAG_LIMIT
  | JoinLike => TAG_JOIN
  end.

Definition name_of (T : Kind) : string :=
  match T with
  | LimitMarker => "LimitMarker"
  | JoinLike => "JoinLike"
  end.

Definition join_eq (l r : BaseOperatorNodeContents) : bool :=
  match dynamic_kind r with
  | JoinLike => bool_decide (members l = members r)
  | LimitMarker => false
  end.

Definition join_hash (n : BaseOperatorNodeContents) : hash_t :=
  to_size_t (Z.lxor (hash_tag TAG_JOIN) (members n)).

#[export] Instance catalog : Catalog := {|
  OperatorNodeContents_name := name_of;
  OperatorNodeContents_type := tag_of;
  logical_tag := λ _, true;
  Visit := λ T _ v, name_of T :: v;
  Hash_override := λ T,
    match T with JoinLike => Some join_hash | LimitMarker => None end;
  eq_override := λ T,
    match T with JoinLike => Some join_eq | LimitMarker => None end;
  ne_override := λ _, None;
|}.

Definition limit : BaseOperatorNodeContents :=
  {| dynamic_kind := LimitMarker; members := 0%Z |}.

Definition limit' : BaseOperatorNodeContents :=
  {| dynamic_kind := LimitMarker; members := 5%Z |}.

Definition join (p : Z) : BaseOperatorNodeContents :=
  {| dynamic_kind := JoinLike; members := p |}.

(** A store with three instances, and handles on them. *)

Definition σ0 : heap :=
  <[3%positive := join 7]> (<[2%positive := limit']> (<[1%positive := limit]> ∅)).

Definition h_limit : Operator := Operator_new (Some 1%positive).
Definition h_limit' : Operator := Operator_new (Some 2%positive).
Definition h_join : Operator := Operator_new (Some 3%positive).

End Fixture.

(** A second catalog over the same classes, in which both classes are
    registered under one tag and neither overrides anything: the situation
    in which the type tag and the dynamic type come apart. *)

Module SharedTag.

Definition catalog : @Catalog Fixture.externals :=
  @Build_Catalog Fixture.externals
    (* OperatorNodeContents_name *) Fixture.name_of
    (* OperatorNodeContents_type *) (λ _, Fixture.TAG_JOIN)
    (* logical_tag *) (λ _, true)
    (* Visit *) (λ T _ v, Fixture.name_of T :: v)
    (* Hash_override *) (λ _, None)
    (* eq_override *) (λ _, None)
    (* ne_override *) (λ _, None).

End SharedTag.

(** A third catalog, whose instances own other instances: the members are a
    predicate and the nested node handles.  The join-like class overrides
    [operator==] to compare the predicate. *)

Module Nested.

#[export] Instance externals : Externals := {|
  OpType := Fixture.Tag;
  OpType_eq_dec := Fixture.Tag_eq_dec;
  HashUtil_Hash := Fixture.hash_tag;
  OperatorVisitor := list string;
  ConcreteKind := Fixture.Kind;
  ConcreteKind_eq_dec := Fixture.Kind_eq_dec;
  Members := Z * list loc;
|}.

Definition join_eq (l r : BaseOperatorNodeContents) : bool :=
  match dynamic_kind r with
  | Fixture.JoinLike => bool_decide ((members l).1 = (members r).1)
  | Fixture.LimitMarker => false
  end.

#[export] Instance catalog : Catalog := {|
  OperatorNodeContents_name := Fixture.name_of;
  OperatorNodeContents_type := Fixture.tag_of;
  logical_tag := λ _, true;
  Visit := λ T _ v, Fixture.name_of T :: v;
  Hash_override := λ _, None;
  eq_override := λ T,
    match T with Fixture.JoinLike => Some join_eq | Fixture.LimitMarker => None end;
  ne_override := λ _, None;
|}.

#[export] Instance nesting : Nesting := {|
  nested := snd;
  set_nested := λ cs m, (m.1, cs);
  nested_set_nested := λ cs m _, eq_refl;
|}.

Definition leaf (x : Z) : BaseOperatorNodeContents :=
  {| dynamic_kind := Fixture.LimitMarker; members := (x, []) |}.

Definition join (x : Z) (cs : list loc) : BaseOperatorNodeContents :=
  {| dynamic_kind := Fixture.JoinLike; members := (x, cs) |}.

(** A join at address 3 that owns the two leaves at 1 and 2. *)

Definition σ1 : heap :=
  <[3%positive := join 7 [1%positive; 2%positive]]>
    (<[2%positive := leaf 5]> (<[1%positive := leaf 0]> ∅)).



End Nested.

(** ** Properties *)

#[local] Set Warnings "-clear-no-such-hyp".

Section Properties.
Context `{!Externals} `{!Catalog} `{!Nesting}.

Implicit Types (σ : heap) (h a b : Operator) (n l r : BaseOperatorNodeContents).

(** *** Handles and the store *)

Lemma IsDefined_false h : IsDefined h = false ↔ contents_ h = None.
Proof.
  unfold IsDefined. rewrite bool_decide_eq_false.
  destruct (contents_ h) as [p|]; split.
  - intros Hd. by destruct Hd.
  - done.
  - done.
  - intros _ Hd. by apply Hd.
Qed.

Lemma IsDefined_true h : IsDefined h = true ↔ is_Some (contents_ h).
Proof.
  unfold IsDefined. rewrite bool_decide_eq_true.
  destruct (contents_ h) as [p|]; split; intros Hd; eauto.
  - done.
  - by destruct Hd.
Qed.

Lemma instance_of_Some σ h n :
  instance_of σ h = Some n ↔ ∃ p, contents_ h = Some p ∧ σ !! p = Some n.
Proof.
  unfold instance_of. destruct (contents_ h) as [p|]; simpl.
  - split; [eauto | by intros (? & [= <-] & ?)].
  - split; [done | by intros (? & ? & ?)].
Qed.

Lemma instance_of_defined σ h n : instance_of σ h = Some n → IsDefined h = true.
Proof.
  intros (p & Hp & _)%instance_of_Some. apply IsDefined_true. eauto.
Qed.

Lemma deref_instance_of σ h n :
  instance_of σ h = Some n → deref σ (contents_ h) = Return n.
Proof.
  intros (p & Hp & Hn)%instance_of_Some. by rewrite Hp; simpl; rewrite Hn.
Qed.


Lemma forward_defined {A} (f : BaseOperatorNodeContents → A) σ h n :
  instance_of σ h = Some n → forward f σ h = Return (f n).
Proof.
  intros Hn. unfold forward.
  by rewrite (instance_of_defined _ _ _ Hn), (deref_instance_of _ _ _ Hn).
Qed.

Lemma Operator_eq_defined σ a b l r :
  instance_of σ a = Some l → instance_of σ b = Some r →
  Operator_eq σ a b = Return (contents_eq l r).
Proof.
  intros Hl Hr. unfold Operator_eq.
  rewrite (instance_of_defined _ _ _ Hl), (instance_of_defined _ _ _ Hr).
  by rewrite (deref_instance_of _ _ _ Hl), (deref_instance_of _ _ _ Hr).
Qed.

(** *** The class hierarchy is acyclic *)

Lemma strict_supertype_depth S K : strict_supertype S K → depth S < depth K.
Proof.
  induction 1 as [S K Hb | S M K Hb _ IH].
  - destruct K; simplify_eq/=; lia.
  - destruct K; simplify_eq/=; lia.
Qed.

Lemma strict_supertype_irrefl S K : strict_supertype S K → S ≠ K.
Proof. intros Hlt%strict_supertype_depth ->. lia. Qed.

(** *** The interface's defaults *)

Lemma Hash_default n :
  Hash_override (dynamic_kind n) = None → Hash n = BaseOperatorNodeContents_Hash n.
Proof. intros Hn. unfold Hash. by rewrite Hn. Qed.

Lemma contents_eq_default l r :
  eq_override (dynamic_kind l) = None →
  contents_eq l r = BaseOperatorNodeContents_eq l r.
Proof. intros Hl. unfold contents_eq. by rewrite Hl. Qed.

(** C5: an instance whose class does not override [Hash] hashes to the hash
    of its type tag and of nothing else: [Hash() = HashUtil::Hash(GetType())],
    so two such instances with the same tag have the same hash whatever their
    members are. *)
Theorem default_Hash_is_hash_of_type_tag n :
  Hash_override (dynamic_kind n) = None →
  Hash n = HashUtil_Hash (GetType n) ∧
  ∀ n', Hash_override (dynamic_kind n') = None →
        GetType n' = GetType n → Hash n' = Hash n.
Proof.
  intros Hn. rewrite (Hash_default n Hn). split; [done|].
  intros n' Hn' Ht. rewrite (Hash_default n' Hn').
  unfold BaseOperatorNodeContents_Hash. by rewrite Ht.
Qed.

(** C4: when the class of the left operand does not override equality, the
    default [operator==] returns true exactly when the two type tags
    ([GetType()]) are equal; the members play no part. *)
Theorem default_eq_compares_type_tags l r :
  eq_override (dynamic_kind l) = None →
  contents_eq l r = true ↔ GetType l = GetType r.
Proof.
  intros Hl. rewrite (contents_eq_default l r Hl).
  unfold BaseOperatorNodeContents_eq. apply bool_decide_eq_true.
Qed.

Lemma contents_eq_default_refl n :
  eq_override (dynamic_kind n) = None → contents_eq n n = true.
Proof.
  intros Hn. rewrite (contents_eq_default n n Hn).
  unfold BaseOperatorNodeContents_eq. by apply bool_decide_eq_true.
Qed.

(** X1: when the class of the left operand overrides neither [operator==]
    nor [operator!=], [l != r] is the negation of [l == r] and is true
    exactly when the type tags differ. *)
Theorem default_ne_compares_type_tags l r :
  eq_override (dynamic_kind l) = None →
  ne_override (dynamic_kind l) = None →
  contents_ne l r = negb (contents_eq l r) ∧
  (contents_ne l r = true ↔ GetType l ≠ GetType r).
Proof.
  intros Heq Hne. unfold contents_ne. rewrite Hne.
  unfold BaseOperatorNodeContents_ne. split; [done|].
  rewrite (contents_eq_default l r Heq). unfold BaseOperatorNodeContents_eq.
  rewrite negb_true_iff. apply bool_decide_eq_false.
Qed.

(** C1: for two defined handles whose owned instances keep the default
    [Hash] and [operator==], [a == b] implies [a.Hash() == b.Hash()]: both
    calls return, and return the same value. *)
Theorem default_eq_implies_equal_Hash σ a b l r :
  instance_of σ a = Some l → instance_of σ b = Some r →
  eq_override (dynamic_kind l) = None →
  Hash_override (dynamic_kind l) = None →
  Hash_override (dynamic_kind r) = None →
  Operator_eq σ a b = Return true →
  ∃ v, Operator_Hash σ a = Return v ∧ Operator_Hash σ b = Return v.
Proof.
  intros Ha Hb Heq Hhl Hhr Hab.
  rewrite (Operator_eq_defined _ _ _ _ _ Ha Hb) in Hab.
  injection Hab as Hab. rewrite (contents_eq_default l r Heq) in Hab.
  apply bool_decide_eq_true in Hab.
  exists (Hash l). unfold Operator_Hash.
  rewrite (forward_defined _ _ _ _ Ha), (forward_defined _ _ _ _ Hb).
  split; [done|]. f_equal.
  rewrite (Hash_default l Hhl), (Hash_default r Hhr).
  unfold BaseOperatorNodeContents_Hash. by rewrite Hab.
Qed.

(** *** The checked downcast *)

Lemma As_undefined T σ h : contents_ h = None → As T σ h = Return None.
Proof. intros Hh. unfold As. by rewrite Hh. Qed.

Lemma As_defined T σ h p n :
  contents_ h = Some p → σ !! p = Some n →
  As T σ h = Return (if decide (typeid n = T) then Some p else None).
Proof.
  intros Hp Hn. unfold As. rewrite Hp; simpl. rewrite Hn; simpl.
  by destruct (decide (typeid n = T)).
Qed.

(** C2: on a well-formed handle [h.As<T>()] always returns, without
    throwing; the pointer returned is non-null exactly when [h] is defined
    and the dynamic type of the owned instance is [T] itself, and it is then
    the pointer to that instance; in every other case it is [nullptr]. *)
Theorem As_exact_dynamic_type T σ h :
  owns σ h →
  ∃ res, As T σ h = Return res ∧
    (is_Some res ↔ ∃ n, instance_of σ h = Some n ∧ typeid n = T) ∧
    (res = None ∨ res = contents_ h).
Proof.
  unfold owns. destruct (contents_ h) as [p|] eqn:Hp.
  - intros [n Hn]. rewrite (As_defined T σ h p n Hp Hn).
    eexists; split; [done|]. destruct (decide (typeid n = T)) as [Ht|Ht].
    + split; [|by right]. split; [|by eauto].
      intros _. exists n. split; [|done].
      apply instance_of_Some. eauto.
    + split; [|by left]. split; [by intros [? [=]]|].
      intros (n' & (p' & Hp' & Hn')%instance_of_Some & Ht').
      simplify_eq.
  - intros _. rewrite (As_undefined T σ h Hp).
    eexists; split; [done|]. split; [|by left].
    split; [by intros [? [=]]|].
    intros (n' & (p' & Hp' & _)%instance_of_Some & _). simplify_eq.
Qed.

(** C10: for a defined handle whose owned instance has concrete class [K],
    [As<S>()] returns [nullptr] for every strict supertype [S] of [K], the
    interface [BaseOperatorNodeContents] and the adapter
    [OperatorNodeContents<K>] included: the test is equality of dynamic
    types, not convertibility. *)
Theorem As_strict_supertype_is_null S σ h n :
  instance_of σ h = Some n →
  strict_supertype S (typeid n) →
  As S σ h = Return None.
Proof.
  intros (p & Hp & Hn)%instance_of_Some Hsup%strict_supertype_irrefl.
  rewrite (As_defined S σ h p n Hp Hn).
  destruct (decide (typeid n = S)); [by subst|done].
Qed.

(** *** Undefined handles *)


(** On handles that own live instances the two descriptions of equality
    coincide. *)
Lemma Operator_eq_forwarding_defined σ a b l r :
  instance_of σ a = Some l → instance_of σ b = Some r →
  Operator_eq_forwarding σ a b = Operator_eq σ a b.
Proof.
  intros Ha Hb. rewrite (Operator_eq_defined _ _ _ _ _ Ha Hb).
  unfold Operator_eq_forwarding.
  by rewrite (forward_defined id σ a l Ha), (forward_defined id σ b r Hb).
Qed.

(** C7: when [a] is undefined, [a == b] returns true if [b] is undefined
    too, and [a == b] and [b == a] return false if [b] is defined. *)
Theorem Operator_eq_undefined σ a b :
  IsDefined a = false →
  (IsDefined b = false → Operator_eq σ a b = Return true) ∧
  (IsDefined b = true →
     Operator_eq σ a b = Return false ∧ Operator_eq σ b a = Return false).
Proof.
  intros Ha. unfold Operator_eq. rewrite Ha. split.
  - by intros ->.
  - by intros ->.
Qed.

(** C8: copy construction from a handle that holds no instance evaluates
    [op.contents_->Copy()] on a null [contents_]: a null dereference, not a
    new undefined handle. *)
Theorem Operator_copy_of_null σ :
  Operator_copy σ {| contents_ := None |} = UB NullDereference.
Proof. reflexivity. Qed.

(** *** [std::hash] *)

(** C9: for an instance [s] whose hash is a [std::size_t] value,
    [std::hash<BaseOperatorNodeContents>()(s)] is exactly [s.Hash()]. *)
Theorem std_hash_is_Hash (s : BaseOperatorNodeContents) :
  (0 ≤ Hash s < 2 ^ size_t_bits)%Z →
  std_hash s = Hash s.
Proof.
  intros Hs. unfold std_hash, to_size_t. by apply Z.mod_small.
Qed.

(** X2: [std::hash] agrees with the default equality: two instances that
    keep the default [Hash], and that the default [operator==] finds equal,
    get the same [std::hash] value, so they fall in the same bucket of a
    hash-based container. *)
Theorem std_hash_respects_default_eq l r :
  eq_override (dynamic_kind l) = None →
  Hash_override (dynamic_kind l) = None →
  Hash_override (dynamic_kind r) = None →
  contents_eq l r = true →
  std_hash l = std_hash r.
Proof.
  intros Heq Hl Hr Hlr. rewrite (contents_eq_default l r Heq) in Hlr.
  apply bool_decide_eq_true in Hlr.
  unfold std_hash. rewrite (Hash_default l Hl), (Hash_default r Hr).
  unfold BaseOperatorNodeContents_Hash. by rewrite Hlr.
Qed.

(** *** Copies *)













End Properties.

(** ** Further properties of the header's own code *)

Section Further.
Context `{!Externals} `{!Catalog} `{!Nesting}.

Implicit Types (σ : heap) (h a b : Operator) (n l r m : BaseOperatorNodeContents).

Lemma typeid_inj l r : typeid l = typeid r → dynamic_kind l = dynamic_kind r.
Proof. unfold typeid. by intros [= ->]. Qed.

Lemma As_Some_inv T σ h p :
  As T σ h = Return (Some p) →
  ∃ n, contents_ h = Some p ∧ σ !! p = Some n ∧ typeid n = T.
Proof.
  unfold As. destruct (contents_ h) as [p'|]; [|done]. simpl.
  destruct (σ !! p') as [n|] eqn:Hn; [|done]. simpl.
  destruct (decide (typeid n = T)) as [Ht|Ht]; [|done].
  intros [= <-]. by exists n.
Qed.

(** *** Equality and hashing of instances *)

(** X3: among instances whose classes keep the default [operator==], the
    default equality is reflexive, symmetric and transitive. *)
Theorem default_eq_equivalence l r m :
  eq_override (dynamic_kind l) = None →
  eq_override (dynamic_kind r) = None →
  contents_eq l l = true ∧
  (contents_eq l r = true → contents_eq r l = true) ∧
  (contents_eq l r = true → contents_eq r m = true → contents_eq l m = true).
Proof.
  intros Hl Hr.
  rewrite !(contents_eq_default l _ Hl), !(contents_eq_default r _ Hr).
  unfold BaseOperatorNodeContents_eq. rewrite !bool_decide_eq_true.
  repeat split; congruence.
Qed.

(** X4: two instances of one concrete class report the same tag and the same
    name; when that class keeps the default [operator==] they are equal, and
    when it keeps the default [Hash] they hash alike, whatever their members
    hold. *)
Theorem same_class_same_defaults l r :
  typeid l = typeid r →
  GetType l = GetType r ∧ GetName l = GetName r ∧
  (eq_override (dynamic_kind l) = None → contents_eq l r = true) ∧
  (Hash_override (dynamic_kind l) = None → Hash l = Hash r).
Proof.
  intros Hk%typeid_inj.
  assert (Ht : GetType l = GetType r) by (unfold GetType; by rewrite Hk).
  split; [done|]. split; [unfold GetName; by rewrite Hk|]. split.
  - intros Hl. rewrite (contents_eq_default l r Hl).
    unfold BaseOperatorNodeContents_eq. by apply bool_decide_eq_true.
  - intros Hl. assert (Hr : Hash_override (dynamic_kind r) = None) by (by rewrite <- Hk).
    rewrite (Hash_default l Hl), (Hash_default r Hr).
    unfold BaseOperatorNodeContents_Hash. by rewrite Ht.
Qed.

(** *** The checked downcast *)

(** X6: on a handle that owns a live instance, [As<T>()] succeeds for
    exactly one [T], the dynamic type of the instance; the pointer it then
    returns is the handle's own, and the object behind it has dynamic type
    [T]. *)
Theorem As_succeeds_for_exactly_one_type σ h n :
  instance_of σ h = Some n →
  As (typeid n) σ h = Return (contents_ h) ∧
  ∀ T p, As T σ h = Return (Some p) →
         T = typeid n ∧ contents_ h = Some p ∧ σ !! p = Some n.
Proof.
  intros (p & Hp & Hn)%instance_of_Some. split.
  - rewrite (As_defined _ σ h p n Hp Hn), Hp. by rewrite decide_True.
  - intros T p' (n' & Hp' & Hn' & Ht)%As_Some_inv. simplify_eq. done.
Qed.

(** X7: [As<T>()] at an abstract class, the interface or any instantiation
    of the adapter, returns [nullptr] on every well-formed handle, defined or
    not: no live instance has an abstract class as its dynamic type. *)
Theorem As_abstract_class_is_null σ h T :
  owns σ h →
  As ti_BaseOperatorNodeContents σ h = Return None ∧
  As (ti_OperatorNodeContents T) σ h = Return None.
Proof.
  unfold owns. destruct (contents_ h) as [p|] eqn:Hp.
  - intros [n Hn]. rewrite !(As_defined _ σ h p n Hp Hn).
    unfold typeid. by rewrite !decide_False.
  - intros _. by rewrite !(As_undefined _ σ h Hp).
Qed.

(** X8: the downcast goes by class, the default equality by tag.  When the
    owned instance [n] belongs to a class other than [K'] that is registered
    under the same tag as [K'], [n] compares equal (by the default
    [operator==]) to every instance of [K'], and still [As<K'>()] returns
    [nullptr]. *)
Theorem As_tells_apart_classes_sharing_a_tag σ h n r :
  instance_of σ h = Some n →
  dynamic_kind n ≠ dynamic_kind r →
  OperatorNodeContents_type (dynamic_kind n) =
    OperatorNodeContents_type (dynamic_kind r) →
  eq_override (dynamic_kind n) = None →
  contents_eq n r = true ∧ As (typeid r) σ h = Return None.
Proof.
  intros (p & Hp & Hn)%instance_of_Some Hk Ht Heq. split.
  - rewrite (contents_eq_default n r Heq).
    unfold BaseOperatorNodeContents_eq. by apply bool_decide_eq_true.
  - rewrite (As_defined _ σ h p n Hp Hn).
    rewrite decide_False; [done|]. by intros ?%typeid_inj.
Qed.

(** X9: when [As<T>()] succeeds on two handles for the same [T], the two
    pointers lead to instances of class [T] that report the same tag and the
    same name. *)
Theorem As_same_type_same_tag T σ a b pa pb :
  As T σ a = Return (Some pa) →
  As T σ b = Return (Some pb) →
  ∃ l r, σ !! pa = Some l ∧ σ !! pb = Some r ∧
         typeid l = T ∧ typeid r = T ∧
         GetType l = GetType r ∧ GetName l = GetName r.
Proof.
  intros (l & _ & Hl & Htl)%As_Some_inv (r & _ & Hr & Htr)%As_Some_inv.
  exists l, r. repeat split; try done.
  - unfold GetType. f_equal. apply typeid_inj. congruence.
  - unfold GetName. f_equal. apply typeid_inj. congruence.
Qed.

End Further.

(** ** The copy theorem on a store with nested instances *)

Module NestedChecks.
Import Nested.


End NestedChecks.

(** ** The theorems on the small catalog *)

Import Fixture.

Lemma default_Hash_is_hash_of_type_tag_witness :
  Hash_override (dynamic_kind limit) = None ∧
  Hash limit = 17%Z ∧ Hash limit' = Hash limit.
Proof.
  split; [reflexivity|].
  destruct (default_Hash_is_hash_of_type_tag limit) as [H1 H2]; [reflexivity|].
  split; [exact H1|].
  apply H2; reflexivity.
Defined.

Lemma default_eq_compares_type_tags_witness :
  eq_override (dynamic_kind limit) = None ∧
  (contents_eq limit limit' = true ↔ GetType limit = GetType limit').
Proof.
  split; [reflexivity|].
  apply (default_eq_compares_type_tags limit limit'). reflexivity.
Defined.

Lemma default_eq_implies_equal_Hash_witness :
  Operator_eq σ0 h_limit h_limit' = Return true ∧
  ∃ v, Operator_Hash σ0 h_limit = Return v ∧ Operator_Hash σ0 h_limit' = Return v.
Proof.
  split; [reflexivity|].
  apply (default_eq_implies_equal_Hash σ0 h_limit h_limit' limit limit');
    reflexivity.
Defined.

Lemma As_exact_dynamic_type_witness :
  owns σ0 h_join ∧
  ∃ res, As (ti_Concrete JoinLike) σ0 h_join = Return res ∧
    (is_Some res ↔
       ∃ n, instance_of σ0 h_join = Some n ∧ typeid n = ti_Concrete JoinLike) ∧
    (res = None ∨ res = contents_ h_join).
Proof.
  assert (Hown : owns σ0 h_join) by (exists (join 7); reflexivity).
  split; [exact Hown|].
  apply (As_exact_dynamic_type _ σ0 h_join Hown).
Defined.

Lemma As_strict_supertype_is_null_witness :
  strict_supertype ti_BaseOperatorNodeContents (typeid (join 7)) ∧
  As ti_BaseOperatorNodeContents σ0 h_join = Return None ∧
  As (ti_OperatorNodeContents JoinLike) σ0 h_join = Return None.
Proof.
  assert (Hadapter : strict_supertype (ti_OperatorNodeContents JoinLike) (typeid (join 7)))
    by (apply supertype_direct; reflexivity).
  assert (Hbase : strict_supertype ti_BaseOperatorNodeContents (typeid (join 7))).
  { eapply supertype_step; [reflexivity|]. apply supertype_direct; reflexivity. }
  split; [exact Hbase|]. split.
  - apply (As_strict_supertype_is_null _ σ0 h_join (join 7)); [reflexivity|exact Hbase].
  - apply (As_strict_supertype_is_null _ σ0 h_join (join 7)); [reflexivity|exact Hadapter].
Defined.


(** Where the two descriptions of equality part: on two undefined handles
    the one returns true, the other throws. *)
Lemma eq_descriptions_part_on_undefined :
  Operator_eq σ0 Operator_default Operator_default = Return true ∧
  Operator_eq_forwarding σ0 Operator_default Operator_default
    = Throw UndefinedOperator.
Proof. split; reflexivity. Qed.

Lemma Operator_eq_undefined_witness :
  IsDefined Operator_default = false ∧
  Operator_eq σ0 Operator_default Operator_default = Return true ∧
  Operator_eq σ0 Operator_default h_join = Return false ∧
  Operator_eq σ0 h_join Operator_default = Return false.
Proof.
  split; [reflexivity|]. split.
  - apply (Operator_eq_undefined σ0 Operator_default Operator_default); reflexivity.
  - apply (Operator_eq_undefined σ0 Operator_default h_join); reflexivity.
Defined.

Lemma std_hash_is_Hash_witness :
  (0 ≤ Hash (join 7) < 2 ^ size_t_bits)%Z ∧ std_hash (join 7) = 45%Z.
Proof.
  assert (Hrange : (0 ≤ Hash (join 7) < 2 ^ size_t_bits)%Z)
    by (vm_compute; split; [discriminate|reflexivity]).
  split; [exact Hrange|].
  rewrite (std_hash_is_Hash (join 7) Hrange). reflexivity.
Defined.

Lemma default_ne_compares_type_tags_witness :
  contents_ne limit (join 7) = true ∧ contents_ne limit limit' = false.
Proof.
  destruct (default_ne_compares_type_tags limit (join 7)) as [_ Hj];
    [reflexivity | reflexivity |].
  destruct (default_ne_compares_type_tags limit limit') as [Hl _];
    [reflexivity | reflexivity |].
  split.
  - apply Hj. discriminate.
  - rewrite Hl. reflexivity.
Defined.

Lemma std_hash_respects_default_eq_witness :
  contents_eq limit limit' = true ∧ std_hash limit = std_hash limit'.
Proof.
  split; [reflexivity|].
  apply (std_hash_respects_default_eq limit limit'); reflexivity.
Defined.

Lemma default_eq_equivalence_witness :
  contents_eq limit limit = true ∧
  (contents_eq limit limit' = true → contents_eq limit' limit = true) ∧
  (contents_eq limit limit' = true → contents_eq limit' limit = true →
   contents_eq limit limit = true).
Proof.
  apply (default_eq_equivalence limit limit' limit); reflexivity.
Defined.

Lemma same_class_same_defaults_witness :
  typeid limit = typeid limit' ∧
  GetType limit = GetType limit' ∧ GetName limit = GetName limit' ∧
  contents_eq limit limit' = true ∧ Hash limit = Hash limit'.
Proof.
  split; [reflexivity|].
  destruct (same_class_same_defaults limit limit') as (Ht & Hn & He & Hh);
    [reflexivity|].
  split; [exact Ht|]. split; [exact Hn|]. split.
  - apply He. reflexivity.
  - apply Hh. reflexivity.
Defined.

Lemma As_succeeds_for_exactly_one_type_witness :
  instance_of σ0 h_join = Some (join 7) ∧
  As (ti_Concrete JoinLike) σ0 h_join = Return (Some 3%positive) ∧
  ∀ T p, As T σ0 h_join = Return (Some p) → T = ti_Concrete JoinLike.
Proof.
  split; [reflexivity|].
  destruct (As_succeeds_for_exactly_one_type σ0 h_join (join 7)) as [Hone Honly];
    [reflexivity|].
  split; [exact Hone|].
  intros T p HT. apply (Honly T p HT).
Defined.

Lemma As_abstract_class_is_null_witness :
  owns σ0 h_limit ∧
  As ti_BaseOperatorNodeContents σ0 h_limit = Return None ∧
  As (ti_OperatorNodeContents JoinLike) σ0 h_limit = Return None.
Proof.
  assert (Hown : owns σ0 h_limit) by (exists limit; reflexivity).
  split; [exact Hown|].
  apply (As_abstract_class_is_null σ0 h_limit _ Hown).
Defined.

Lemma As_tells_apart_classes_sharing_a_tag_witness :
  @GetType externals SharedTag.catalog limit =
    @GetType externals SharedTag.catalog (join 7) ∧
  @contents_eq externals SharedTag.catalog limit (join 7) = true ∧
  As (ti_Concrete JoinLike) σ0 h_limit = Return None.
Proof.
  split; [reflexivity|].
  apply (@As_tells_apart_classes_sharing_a_tag externals SharedTag.catalog
           σ0 h_limit limit (join 7));
    [reflexivity | discriminate | reflexivity | reflexivity].
Defined.

Lemma As_same_type_same_tag_witness :
  As (ti_Concrete LimitMarker) σ0 h_limit = Return (Some 1%positive) ∧
  As (ti_Concrete LimitMarker) σ0 h_limit' = Return (Some 2%positive) ∧
  ∃ l r, σ0 !! 1%positive = Some l ∧ σ0 !! 2%positive = Some r ∧
         typeid l = ti_Concrete LimitMarker ∧ typeid r = ti_Concrete LimitMarker ∧
         GetType l = GetType r ∧ GetName l = GetName r.
Proof.
  split; [reflexivity|]. split; [reflexivity|].
  apply (As_same_type_same_tag _ σ0 h_limit h_limit'); reflexivity.
Defined.
